(** * DeepSeek OCR UI: the marker parser, the overlay compositor and the
    session workflow of the React front end (the [App] component)

  The development embeds the front end's code shallowly:
  - [JSString]: ECMAScript strings as sequences of UTF-16 code units, with
    [trim], [indexOf] and [split] as ECMA-262 defines them;
  - [JSNumber]: ECMAScript Numbers as IEEE 754 binary64 values, through the
    Standard Library's executable specification [SpecFloat];
  - [JSRegExp]: a backtracking matcher for the fragment of regular
    expressions that the detection pattern uses;
  - the parser [parseOCRResult], the label size of [createOverlayImage], and
    the component's handlers over an explicit store with the browser's
    resources (object URLs, media streams). *)

From Stdlib Require Import Ascii String.
From Stdlib Require Import List NArith ZArith Bool Lia.
From Stdlib Require Import SpecFloat.
Import ListNotations.

(* ================================================================== *)
(** ** ECMAScript strings *)

Module JSString.

(** A string value is a finite sequence of 16-bit code units. *)
Definition char := N.
Definition jsstring := list char.

(** String literals of the source (all of them ASCII). *)
Definition lit (s : string) : jsstring :=
  map N_of_ascii (list_ascii_of_string s).
Arguments lit s%_string.

(** ECMA-262 WhiteSpace and LineTerminator code points: what
    [String.prototype.trim] strips and what [\s] matches. *)
Definition isWhiteSpace (c : char) : bool :=
  existsb (N.eqb c)
    [9; 10; 11; 12; 13; 32; 160; 5760; 8232; 8233; 8239; 8287; 12288; 65279]%N
  || ((8192 <=? c) && (c <=? 8202))%N.

(** What [\d] matches: the ten ASCII digits only. *)
Definition isDigit (c : char) : bool := ((48 <=? c) && (c <=? 57))%N.

Fixpoint trimStart (s : jsstring) : jsstring :=
  match s with
  | c :: s' => if isWhiteSpace c then trimStart s' else s
  | [] => []
  end.

Definition trimEnd (s : jsstring) : jsstring := rev (trimStart (rev s)).

(** [s.trim()] *)
Definition trim (s : jsstring) : jsstring := trimEnd (trimStart s).

(** ToBoolean of a string: only the empty string is falsy. *)
Definition truthy (s : jsstring) : bool :=
  match s with [] => false | _ :: _ => true end.

Fixpoint eqb (a b : jsstring) : bool :=
  match a, b with
  | [], [] => true
  | x :: a', y :: b' => (x =? y)%N && eqb a' b'
  | _, _ => false
  end.

Fixpoint startsWith (p s : jsstring) : bool :=
  match p, s with
  | [], _ => true
  | a :: p', b :: s' => (a =? b)%N && startsWith p' s'
  | _ :: _, [] => false
  end.

(** [s.indexOf(sep)]: the least position at which [sep] occurs. *)
Fixpoint indexOf (sep s : jsstring) : option nat :=
  if startsWith sep s then Some 0
  else match s with
       | [] => None
       | _ :: s' => option_map S (indexOf sep s')
       end.


(** The loop of [String.prototype.split] for a non-empty separator: cut at
    the next occurrence, continue behind it.  Every round consumes at least
    one code unit, so [S (length s)] rounds are enough. *)
Fixpoint split_from (fuel : nat) (sep s : jsstring) : list jsstring :=
  match fuel with
  | 0 => [s]
  | S fuel' =>
      match indexOf sep s with
      | None => [s]
      | Some j => firstn j s :: split_from fuel' sep (skipn (j + length sep) s)
      end
  end.

(** [s.split(sep)]; with the empty separator the string falls apart into its
    code units. *)
Definition split (s sep : jsstring) : list jsstring :=
  match sep with
  | [] => map (fun c => [c]) s
  | _ :: _ => split_from (S (length s)) sep s
  end.



End JSString.

(* ================================================================== *)
(** ** ECMAScript Numbers *)

Module JSNumber.
Import JSString.

(** A Number is an IEEE 754 binary64 value: 53 bits of precision, exponents
    below 1024.  [SpecFloat] is the Standard Library's executable
    specification of that arithmetic. *)
Definition number := spec_float.
Definition prec : Z := 53.
Definition emax : Z := 1024.

Definition NaN : number := S754_nan.
Definition posInfinity : number := S754_infinity false.
Definition negInfinity : number := S754_infinity true.

(** The Number value for a mathematical integer: the nearest binary64, ties
    to even.  Numeric literals such as [12] denote [ofZ 12]. *)
Definition ofZ (n : Z) : number := binary_normalize prec emax n 0 false.


Definition isNaN (x : number) : bool :=
  match x with S754_nan => true | _ => false end.

(** [x - y], [x / y] and [x < y] *)
Definition sub (x y : number) : number := SFsub prec emax x y.
Definition div (x y : number) : number := SFdiv prec emax x y.
Definition ltb (x y : number) : bool := SFltb x y.

(** [Math.max]: NaN if any argument is NaN; otherwise the largest, with +0
    above -0 (ECMA-262 21.3.2.24). *)
Fixpoint max_loop (highest : number) (coerced : list number) : number :=
  match coerced with
  | [] => highest
  | x :: rest =>
      if isNaN x then NaN
      else match x, highest with
           | S754_zero false, S754_zero true => max_loop x rest
           | _, _ => if ltb highest x then max_loop x rest
                     else max_loop highest rest
           end
  end.
Definition mathMax (args : list number) : number := max_loop negInfinity args.

(** [Math.min], dually (ECMA-262 21.3.2.25). *)
Fixpoint min_loop (lowest : number) (coerced : list number) : number :=
  match coerced with
  | [] => lowest
  | x :: rest =>
      if isNaN x then NaN
      else match x, lowest with
           | S754_zero true, S754_zero false => min_loop x rest
           | _, _ => if ltb x lowest then min_loop x rest
                     else min_loop lowest rest
           end
  end.
Definition mathMin (args : list number) : number := min_loop posInfinity args.

(** *** [parseInt(string)], radix absent (ECMA-262 19.2.5) *)

(** The value of a code unit as a digit, in radixes up to 36. *)
Definition digitValue (c : char) : option N :=
  if ((48 <=? c) && (c <=? 57))%N then Some (c - 48)%N
  else if ((97 <=? c) && (c <=? 122))%N then Some (c - 87)%N
  else if ((65 <=? c) && (c <=? 90))%N then Some (c - 55)%N
  else None.

(** The digits of the longest prefix of [s] made of radix-[R] digits. *)
Fixpoint radixDigits (R : N) (s : jsstring) : list N :=
  match s with
  | c :: s' =>
      match digitValue c with
      | Some d => if (d <? R)%N then d :: radixDigits R s' else []
      | None => []
      end
  | [] => []
  end.

(** The mathematical integer that a digit sequence writes in radix [R]. *)
Definition mathInt (R : N) (ds : list N) : N :=
  fold_left (fun acc d => acc * R + d)%N ds 0%N.

(** Leading white space is skipped; a sign is read; a [0x] prefix switches to
    radix 16; the longest prefix of digits is the numeral, and without one the
    result is NaN.  The result is the Number nearest to the numeral's integer
    (past twenty digits ECMA-262 lets an implementation round the numeral
    first; the engines convert it exactly, as here). *)
Definition parseInt (string : jsstring) : number :=
  let str := trimStart string in
  let sign :=
    match str with c :: _ => (c =? 45)%N | [] => false end in
  let str :=
    match str with
    | c :: rest => if ((c =? 45) || (c =? 43))%N then rest else str
    | [] => str
    end in
  let hex :=
    match str with
    | c0 :: c1 :: _ => ((c0 =? 48) && ((c1 =? 120) || (c1 =? 88)))%N
    | _ => false
    end in
  let R := if hex then 16%N else 10%N in
  let str := if hex then skipn 2 str else str in
  match radixDigits R str with
  | [] => NaN
  | ds =>
      let n := Z.of_N (mathInt R ds) in
      binary_normalize prec emax (if sign then (- n)%Z else n) 0 sign
  end.


End JSNumber.

(* ================================================================== *)
(** ** Regular expressions: the fragment the detection pattern is written in *)

Module JSRegExp.
Import JSString.

(** A pattern is a sequence of pattern characters and of greedy quantifiers
    over a character class; [capture] marks a quantifier that is the whole
    of a capture group, as in [(\d+)]. *)
Inductive node :=
| Char (c : char)
| Repeat (cls : char -> bool) (min : nat) (capture : bool).

(** The length of the longest prefix of [s] inside the class. *)
Fixpoint run (cls : char -> bool) (s : jsstring) : nat :=
  match s with
  | c :: s' => if cls c then S (run cls s') else 0
  | [] => 0
  end.

(** A greedy quantifier tries the longest repetition first and gives back
    one code unit at a time, down to [min], until the rest of the pattern
    matches. *)
Fixpoint greedy {A} (k min : nat) (try : nat -> option A) : option A :=
  if k <? min then None
  else match try k with
       | Some r => Some r
       | None => match k with
                 | 0 => None
                 | S k' => greedy k' min try
                 end
       end.

(** Match the pattern at the start of [s]: the number of code units
    consumed and the captures, in the order of the groups. *)
Fixpoint matchHere (re : list node) (s : jsstring)
  : option (nat * list jsstring) :=
  match re with
  | [] => Some (0, [])
  | Char c :: re' =>
      match s with
      | x :: s' =>
          if (x =? c)%N
          then option_map (fun r => (S (fst r), snd r)) (matchHere re' s')
          else None
      | [] => None
      end
  | Repeat cls min capture :: re' =>
      greedy (run cls s) min (fun k =>
        option_map
          (fun r => (k + fst r, if capture then firstn k s :: snd r else snd r))
          (matchHere re' (skipn k s)))
  end.

(** The result array of a match: [groups] holds the matched substring at
    index 0 and the i-th capture at index i. *)
Record matchResult := { index : nat; groups : list jsstring }.

Fixpoint execFrom (re : list node) (i : nat) (s : jsstring)
  : option matchResult :=
  match matchHere re s with
  | Some (n, caps) => Some {| index := i; groups := firstn n s :: caps |}
  | None => match s with
            | [] => None
            | _ :: s' => execFrom re (S i) s'
            end
  end.

(** [s.match(re)] for a pattern without the [g] flag: the leftmost match,
    or [None] for [null]. *)
Definition stringMatch (s : jsstring) (re : list node) : option matchResult :=
  execFrom re 0 s.

(** [m[i]] *)
Definition group (m : matchResult) (i : nat) : jsstring := nth i (groups m) [].

End JSRegExp.

Import JSString JSNumber JSRegExp.

(* ================================================================== *)
(** ** The marker parser ([parseOCRResult]) *)

(** [interface TextRegion { text: string; bbox: [number, number, number, number] }] *)
Record TextRegion := {
  text : jsstring;
  bbox : number * number * number * number   (* [x1, y1, x2, y2] *)
}.

(** ['<|ref|>text<|/ref|>'] and ['<|/det|>'] *)
Definition refDelimiter : jsstring := lit "<|ref|>text<|/ref|>".
Definition detClose : jsstring := lit "<|/det|>".

(** [/<\|det\|>\[\[(\d+),\s*(\d+),\s*(\d+),\s*(\d+)\]\]<\|\/det\|>/] *)
Definition detPattern : list node :=
  map Char (lit "<|det|>[[")
  ++ [Repeat isDigit 1 true]
  ++ [Char 44%N; Repeat isWhiteSpace 0 false; Repeat isDigit 1 true]
  ++ [Char 44%N; Repeat isWhiteSpace 0 false; Repeat isDigit 1 true]
  ++ [Char 44%N; Repeat isWhiteSpace 0 false; Repeat isDigit 1 true]
  ++ map Char (lit "]]<|/det|>").

(** The body of the loop over the blocks: what one block adds to [regions]. *)
Definition parseBlock (regions : list TextRegion) (block : jsstring)
  : list TextRegion :=
  match stringMatch block detPattern with
  | Some detMatch =>
      let bbox := (parseInt (group detMatch 1), parseInt (group detMatch 2),
                   parseInt (group detMatch 3), parseInt (group detMatch 4)) in
      (* block.split('<|/det|>')[1]?.trim() *)
      match option_map trim (nth_error (split block detClose) 1) with
      | Some textContent =>
          if truthy textContent
          then regions ++ [{| text := textContent; bbox := bbox |}]
          else regions
      | None => regions
      end
  | None => regions
  end.

Definition parseOCRResult (text : jsstring) : list TextRegion :=
  let textBlocks :=
    filter (fun block => truthy (trim block)) (split text refDelimiter) in
  fold_left parseBlock textBlocks [].

(** How a call ends: with a value, or by throwing. *)
Inductive Completion (A : Type) :=
| Normal (a : A)
| Throws (error : jsstring).
Arguments Normal {A} a.
Arguments Throws {A} error.

(** [parseOCRResult(v)] for what the response may hold in [text]: a string,
    or nothing ([undefined], on which [text.split] throws a TypeError).  On a
    string no step of the function can throw. *)
Definition callParseOCRResult (v : option jsstring)
  : Completion (list TextRegion) :=
  match v with
  | Some text => Normal (parseOCRResult text)
  | None => Throws (lit "TypeError")
  end.

(* ================================================================== *)
(** ** The label size of the overlay compositor ([createOverlayImage]) *)

(** [const fontSize = Math.max(12, Math.min(16, (y2 - y1) / 3));] *)
Definition labelFontSize (region : TextRegion) : number :=
  let '(x1, y1, x2, y2) := bbox region in
  mathMax [ofZ 12; mathMin [ofZ 16; div (sub y2 y1) (ofZ 3)]].

(** The spec's [clamp(v, lo, hi)]: [v], held inside the interval from [lo] to
    [hi]. *)
Definition clamp (v lo hi : number) : number :=
  if ltb v lo then lo else if ltb hi v then hi else v.

(* ================================================================== *)
(** ** The session: state cells, browser resources, suspended calls *)

Record File := { fileName : jsstring; fileBlob : nat }.

(** Object URLs and media streams are known by their identity. *)
Definition URL := nat.
Definition MediaStream := nat.

Inductive Format := FormatText | FormatMarkdown.

(** The [useState] cells of [App]. *)
Record Store := {
  selectedFile : option File;
  imageSize : N * N;
  overlayImageUrl : option URL;
  ocrResult : jsstring;
  textRegions : list TextRegion;
  outputFormat : Format;
  isLoading : bool;
  showWebcam : bool;
  stream : option MediaStream;
  cameraAvailable : option bool
}.

(** An async function stopped at an [await] or waiting for a callback keeps
    the variables of the render that created it: the handlers are closures
    over the state of that render, not over the state at the time they
    resume. *)
Inductive Continuation :=
| AwaitFetch (render : Store)     (* handleOCR, at fetch / response.json *)
| AwaitOverlay (render : Store)   (* createOverlayImage: img.onload, canvas.toBlob *)
| AwaitCapture (render : Store)   (* capturePhoto: canvas.toBlob *)
| AwaitCamera.                    (* startWebcam, at getUserMedia *)

Inductive BlobKind := SourceBlob | OverlayBlob.

Record World := {
  store : Store;
  objectURLs : list (URL * BlobKind);  (* created by URL.createObjectURL, not revoked *)
  liveStreams : list MediaStream;      (* acquired, tracks not stopped *)
  nextId : nat;
  pending : list Continuation
}.

Definition initialStore : Store :=
  {| selectedFile := None; imageSize := (0, 0)%N; overlayImageUrl := None;
     ocrResult := []; textRegions := []; outputFormat := FormatText;
     isLoading := false; showWebcam := false; stream := None;
     cameraAvailable := None |}.

Definition initialWorld : World :=
  {| store := initialStore; objectURLs := []; liveStreams := [];
     nextId := 0; pending := [] |}.

(** *** A state monad over the world *)

Definition M (A : Type) : Type := World -> A * World.

Definition ret {A} (a : A) : M A := fun w => (a, w).
Definition bind {A B} (c : M A) (k : A -> M B) : M B :=
  fun w => let (a, w') := c w in k a w'.
Definition exec {A} (c : M A) (w : World) : World := snd (c w).

Notation "x <- c ;; k" := (bind c (fun x => k))
  (at level 61, c at next level, right associativity).
Notation "c ;; k" := (bind c (fun _ => k))
  (at level 61, right associativity).

Definition modifyStore (f : Store -> Store) : M unit :=
  fun w => (tt, {| store := f (store w); objectURLs := objectURLs w;
                   liveStreams := liveStreams w; nextId := nextId w;
                   pending := pending w |}).

(** The state setters. *)
Definition setSelectedFile (v : option File) : M unit :=
  modifyStore (fun s =>
    {| selectedFile := v; imageSize := imageSize s;
       overlayImageUrl := overlayImageUrl s; ocrResult := ocrResult s;
       textRegions := textRegions s; outputFormat := outputFormat s;
       isLoading := isLoading s; showWebcam := showWebcam s;
       stream := stream s; cameraAvailable := cameraAvailable s |}).

Definition setImageSize (v : N * N) : M unit :=
  modifyStore (fun s =>
    {| selectedFile := selectedFile s; imageSize := v;
       overlayImageUrl := overlayImageUrl s; ocrResult := ocrResult s;
       textRegions := textRegions s; outputFormat := outputFormat s;
       isLoading := isLoading s; showWebcam := showWebcam s;
       stream := stream s; cameraAvailable := cameraAvailable s |}).

Definition setOverlayImageUrl (v : option URL) : M unit :=
  modifyStore (fun s =>
    {| selectedFile := selectedFile s; imageSize := imageSize s;
       overlayImageUrl := v; ocrResult := ocrResult s;
       textRegions := textRegions s; outputFormat := outputFormat s;
       isLoading := isLoading s; showWebcam := showWebcam s;
       stream := stream s; cameraAvailable := cameraAvailable s |}).

Definition setOcrResult (v : jsstring) : M unit :=
  modifyStore (fun s =>
    {| selectedFile := selectedFile s; imageSize := imageSize s;
       overlayImageUrl := overlayImageUrl s; ocrResult := v;
       textRegions := textRegions s; outputFormat := outputFormat s;
       isLoading := isLoading s; showWebcam := showWebcam s;
       stream := stream s; cameraAvailable := cameraAvailable s |}).

Definition setTextRegions (v : list TextRegion) : M unit :=
  modifyStore (fun s =>
    {| selectedFile := selectedFile s; imageSize := imageSize s;
       overlayImageUrl := overlayImageUrl s; ocrResult := ocrResult s;
       textRegions := v; outputFormat := outputFormat s;
       isLoading := isLoading s; showWebcam := showWebcam s;
       stream := stream s; cameraAvailable := cameraAvailable s |}).

Definition setOutputFormat (v : Format) : M unit :=
  modifyStore (fun s =>
    {| selectedFile := selectedFile s; imageSize := imageSize s;
       overlayImageUrl := overlayImageUrl s; ocrResult := ocrResult s;
       textRegions := textRegions s; outputFormat := v;
       isLoading := isLoading s; showWebcam := showWebcam s;
       stream := stream s; cameraAvailable := cameraAvailable s |}).

Definition setIsLoading (v : bool) : M unit :=
  modifyStore (fun s =>
    {| selectedFile := selectedFile s; imageSize := imageSize s;
       overlayImageUrl := overlayImageUrl s; ocrResult := ocrResult s;
       textRegions := textRegions s; outputFormat := outputFormat s;
       isLoading := v; showWebcam := showWebcam s;
       stream := stream s; cameraAvailable := cameraAvailable s |}).

Definition setShowWebcam (v : bool) : M unit :=
  modifyStore (fun s =>
    {| selectedFile := selectedFile s; imageSize := imageSize s;
       overlayImageUrl := overlayImageUrl s; ocrResult := ocrResult s;
       textRegions := textRegions s; outputFormat := outputFormat s;
       isLoading := isLoading s; showWebcam := v;
       stream := stream s; cameraAvailable := cameraAvailable s |}).

Definition setStream (v : option MediaStream) : M unit :=
  modifyStore (fun s =>
    {| selectedFile := selectedFile s; imageSize := imageSize s;
       overlayImageUrl := overlayImageUrl s; ocrResult := ocrResult s;
       textRegions := textRegions s; outputFormat := outputFormat s;
       isLoading := isLoading s; showWebcam := showWebcam s;
       stream := v; cameraAvailable := cameraAvailable s |}).

Definition setCameraAvailable (v : option bool) : M unit :=
  modifyStore (fun s =>
    {| selectedFile := selectedFile s; imageSize := imageSize s;
       overlayImageUrl := overlayImageUrl s; ocrResult := ocrResult s;
       textRegions := textRegions s; outputFormat := outputFormat s;
       isLoading := isLoading s; showWebcam := showWebcam s;
       stream := stream s; cameraAvailable := v |}).

(** The browser's side. *)

(** [URL.createObjectURL(blob)]: a fresh URL, live until revoked. *)
Definition createObjectURL (kind : BlobKind) : M URL :=
  fun w => (nextId w,
            {| store := store w;
               objectURLs := objectURLs w ++ [(nextId w, kind)];
               liveStreams := liveStreams w; nextId := S (nextId w);
               pending := pending w |}).

(** [URL.revokeObjectURL(url)]; revoking a URL that is not live does nothing. *)
Definition revokeObjectURL (url : URL) : M unit :=
  fun w => (tt,
            {| store := store w;
               objectURLs := filter (fun e => negb (fst e =? url)) (objectURLs w);
               liveStreams := liveStreams w; nextId := nextId w;
               pending := pending w |}).

(** [getUserMedia] resolving: a fresh stream with live tracks. *)
Definition openStream : M MediaStream :=
  fun w => (nextId w,
            {| store := store w; objectURLs := objectURLs w;
               liveStreams := liveStreams w ++ [nextId w];
               nextId := S (nextId w); pending := pending w |}).

(** [stream.getTracks().forEach(track => track.stop())] *)
Definition stopTracks (s : MediaStream) : M unit :=
  fun w => (tt,
            {| store := store w; objectURLs := objectURLs w;
               liveStreams := filter (fun x => negb (x =? s)) (liveStreams w);
               nextId := nextId w; pending := pending w |}).

(** Leave the handler with a call in flight. *)
Definition suspend (k : Continuation) : M unit :=
  fun w => (tt,
            {| store := store w; objectURLs := objectURLs w;
               liveStreams := liveStreams w; nextId := nextId w;
               pending := pending w ++ [k] |}).

(** The world with the [i]-th call in flight taken out. *)
Definition dequeue (i : nat) (w : World) : World :=
  {| store := store w; objectURLs := objectURLs w;
     liveStreams := liveStreams w; nextId := nextId w;
     pending := firstn i (pending w) ++ skipn (S i) (pending w) |}.

(** Take the [i]-th call in flight out of the waiting list, if it is of the
    kind that is [wanted]. *)
Definition resume (i : nat) (wanted : Continuation -> bool)
  : M (option Continuation) :=
  fun w =>
    match nth_error (pending w) i with
    | Some k => if wanted k then (Some k, dequeue i w) else (None, w)
    | None => (None, w)
    end.

Definition isAwaitFetch (k : Continuation) : bool :=
  match k with AwaitFetch _ => true | _ => false end.
Definition isAwaitOverlay (k : Continuation) : bool :=
  match k with AwaitOverlay _ => true | _ => false end.
Definition isAwaitCapture (k : Continuation) : bool :=
  match k with AwaitCapture _ => true | _ => false end.
Definition isAwaitCamera (k : Continuation) : bool :=
  match k with AwaitCamera => true | _ => false end.

(* ================================================================== *)
(** ** The handlers of [App] *)

(** Every handler is created by a render and reads that render's state
    cells; [render] is the store as that render saw it.  What a handler writes
    goes through the setters, to the store as it is now. *)

(** *** Utility functions *)

Definition cleanupOverlayImage (overlayImageUrl : option URL)
  (setOverlayImageUrl : option URL -> M unit) : M unit :=
  match overlayImageUrl with
  | Some url => revokeObjectURL url ;; setOverlayImageUrl None
  | None => ret tt
  end.

Definition resetOcrState (setOcrResult : jsstring -> M unit)
  (setTextRegions : list TextRegion -> M unit)
  (overlayImageUrl : option URL)
  (setOverlayImageUrl : option URL -> M unit) : M unit :=
  setOcrResult [] ;;
  setTextRegions [] ;;
  cleanupOverlayImage overlayImageUrl setOverlayImageUrl.

(** *** File and image handlers *)

(** [file] is [event.target.files?.[0]]. *)
Definition handleFileSelect (render : Store) (file : option File) : M unit :=
  match file with
  | Some f =>
      setSelectedFile (Some f) ;;
      resetOcrState setOcrResult setTextRegions (overlayImageUrl render)
        setOverlayImageUrl
  | None => ret tt
  end.

Definition handleImageLoad (natural : N * N) : M unit := setImageSize natural.

(** How far a promise has come. *)
Inductive Settlement (A : Type) :=
| Resolved (v : A)
| Unsettled.
Arguments Resolved {A} v.
Arguments Unsettled {A}.

Definition Blob := nat.

(** [imageRef.current]: the preview image is mounted exactly while a file is
    selected. *)
Definition imageRefCurrent : M bool :=
  fun w => (match selectedFile (store w) with Some _ => true | None => false end, w).

(** [createOverlayImage], up to the point where it waits for the image:
    [None] stands for [undefined].  [context2d] tells whether
    [canvas.getContext('2d')] gave a context. *)
Definition createOverlayImage (render : Store) (context2d : bool)
  : M (Settlement (option URL)) :=
  mounted <- imageRefCurrent ;;
  match selectedFile render, textRegions render, mounted with
  | Some _, _ :: _, true =>
      if negb context2d then ret (Resolved None)
      else
        (* img.src = URL.createObjectURL(selectedFile) *)
        _ <- createObjectURL SourceBlob ;;
        suspend (AwaitOverlay render) ;;
        ret Unsettled
  | _, _, _ => ret (Resolved None)
  end.

(** What the browser does with the image: it decodes it and the canvas is
    encoded to a blob or to [null], or it fails to decode. *)
Inductive ImageLoad :=
| Decoded (blob : option Blob)
| DecodeFailed.

(** The rest of [createOverlayImage]: [img.onload] draws and calls
    [canvas.toBlob], whose callback stores the URL and resolves the promise.
    No [onerror] handler is installed and a [null] blob is passed over, so in
    those cases nothing runs and the promise stays unsettled. *)
Definition createOverlayImage_loaded (render : Store) (load : ImageLoad)
  : M (Settlement (option URL)) :=
  match load with
  | Decoded (Some blob) =>
      url <- createObjectURL OverlayBlob ;;
      setOverlayImageUrl (Some url) ;;
      ret (Resolved (Some url))
  | Decoded None => ret Unsettled
  | DecodeFailed => ret Unsettled
  end.

(** [downloadOverlayImage]: the link it clicks, if any; the state is not
    touched. *)
Definition downloadOverlayImage (render : Store) : option (URL * jsstring) :=
  match overlayImageUrl render with
  | Some url =>
      let name := match selectedFile render with
                  | Some f => if truthy (fileName f) then fileName f else lit "image"
                  | None => lit "image"
                  end in
      Some (url, lit "ocr-overlay-" ++ name ++ lit ".jpg")
  | None => None
  end.

(** *** OCR handlers *)

(** The JSON body of the service: [{success, text?, error?}]. *)
Record OcrResponse := {
  success : bool;
  responseText : option jsstring;
  responseError : option jsstring
}.

Inductive FetchOutcome :=
| FetchRejected                 (* the fetch promise rejects *)
| BodyRejected                  (* response.json() rejects *)
| Body (data : OcrResponse).

(** [handleOCR] up to [await fetch]. *)
Definition handleOCR (render : Store) : M unit :=
  match selectedFile render with
  | None => ret tt
  | Some _ =>
      setIsLoading true ;;
      suspend (AwaitFetch render)
  end.

(** [`Error: ${data.error || "Failed to process image"}`] *)
Definition serviceError (data : OcrResponse) : jsstring :=
  lit "Error: " ++
  match responseError data with
  | Some e => if truthy e then e else lit "Failed to process image"
  | None => lit "Failed to process image"
  end.

(** The [catch] block. *)
Definition handleOCR_catch (render : Store) : M unit :=
  setOcrResult (lit "Error: Failed to connect to OCR service") ;;
  setTextRegions [] ;;
  cleanupOverlayImage (overlayImageUrl render) setOverlayImageUrl.

(** [handleOCR] from the settled fetch on.  With [success] and no [text],
    [setOcrResult(undefined)] is overwritten at once: [parseOCRResult] throws
    and control passes to the [catch] block. *)
Definition handleOCR_settled (render : Store) (o : FetchOutcome) : M unit :=
  match o with
  | Body data =>
      if success data then
        match responseText data with
        | Some text => setOcrResult text
        | None => ret tt
        end ;;
        match callParseOCRResult (responseText data) with
        | Normal regions =>
            setTextRegions regions ;;
            cleanupOverlayImage (overlayImageUrl render) setOverlayImageUrl
        | Throws _ => handleOCR_catch render
        end
      else
        setOcrResult (serviceError data) ;;
        setTextRegions [] ;;
        cleanupOverlayImage (overlayImageUrl render) setOverlayImageUrl
  | FetchRejected | BodyRejected => handleOCR_catch render
  end ;;
  (* finally *)
  setIsLoading false.

(** *** Webcam handlers *)

(** [startWebcam] up to the first [getUserMedia]; without the API it alerts
    and returns. *)
Definition startWebcam (supported : bool) : M unit :=
  if supported then suspend AwaitCamera else ret tt.

(** The three attempts of [startWebcam], each made when the one before is
    refused: environment camera, any camera, plain video. *)
Definition startWebcam_settled (environment anyCamera plain : bool) : M unit :=
  if environment || anyCamera || plain then
    mediaStream <- openStream ;;
    setStream (Some mediaStream) ;;
    setShowWebcam true
  else ret tt.    (* alert(getCameraErrorMessage(error)) *)

Definition stopWebcam (render : Store) : M unit :=
  match stream render with
  | Some s => stopTracks s ;; setStream None
  | None => ret tt
  end ;;
  setShowWebcam false.

(** [capturePhoto] up to [canvas.toBlob]; [refs] tells whether the video and
    the canvas are mounted. *)
Definition capturePhoto (render : Store) (refs context2d : bool) : M unit :=
  if refs && context2d then suspend (AwaitCapture render) else ret tt.

(** The [toBlob] callback of [capturePhoto]. *)
Definition capturePhoto_encoded (render : Store) (blob : option Blob) : M unit :=
  match blob with
  | Some b =>
      setSelectedFile (Some {| fileName := lit "webcam-photo.jpg"; fileBlob := b |}) ;;
      resetOcrState setOcrResult setTextRegions (overlayImageUrl render)
        setOverlayImageUrl ;;
      stopWebcam render
  | None => ret tt
  end.

(** *** Effects *)

Definition sameHandle (a b : option nat) : bool :=
  match a, b with
  | Some x, Some y => x =? y
  | None, None => true
  | _, _ => false
  end.

(** The cleanups of the two effects keyed on [overlayImageUrl] and on
    [stream]: when a render finds the cell changed, React runs the cleanup
    that the previous render registered, with the previous value. *)
Definition runCleanups (previous : Store) : M unit :=
  now <- (fun w => (store w, w)) ;;
  (if sameHandle (overlayImageUrl previous) (overlayImageUrl now) then ret tt
   else match overlayImageUrl previous with
        | Some url => revokeObjectURL url
        | None => ret tt
        end) ;;
  (if sameHandle (stream previous) (stream now) then ret tt
   else match stream previous with
        | Some s => stopTracks s
        | None => ret tt
        end).

(** *** The workflow as a transition system *)

Inductive Event :=
| CameraChecked (available : bool)
| FileChosen (file : option File)
| ImageLoaded (natural : N * N)
| FormatChosen (f : Format)
| ClickExtract
| FetchSettled (i : nat) (o : FetchOutcome)
| ClickCreateOverlay (context2d : bool)
| OverlayLoaded (i : nat) (load : ImageLoad)
| ClickDownload
| ClickStartWebcam (supported : bool)
| CameraSettled (i : nat) (environment anyCamera plain : bool)
| ClickStopWebcam
| ClickCapture (context2d : bool)
| CaptureEncoded (i : nat) (blob : option Blob).

(** The handler an event runs.  A click runs the handler of the current
    render; a settled call runs the rest of the handler that was suspended,
    with the render it closed over. *)
Definition dispatch (e : Event) (render : Store) : M unit :=
  match e with
  | CameraChecked available => setCameraAvailable (Some available)
  | FileChosen file => handleFileSelect render file
  | ImageLoaded natural => handleImageLoad natural
  | FormatChosen f => setOutputFormat f
  | ClickExtract => handleOCR render
  | FetchSettled i o =>
      k <- resume i isAwaitFetch ;;
      match k with
      | Some (AwaitFetch r) => handleOCR_settled r o
      | _ => ret tt
      end
  | ClickCreateOverlay context2d => createOverlayImage render context2d ;; ret tt
  | OverlayLoaded i load =>
      k <- resume i isAwaitOverlay ;;
      match k with
      | Some (AwaitOverlay r) => createOverlayImage_loaded r load ;; ret tt
      | _ => ret tt
      end
  | ClickDownload => ret tt
  | ClickStartWebcam supported => startWebcam supported
  | CameraSettled i environment anyCamera plain =>
      k <- resume i isAwaitCamera ;;
      match k with
      | Some AwaitCamera => startWebcam_settled environment anyCamera plain
      | _ => ret tt
      end
  | ClickStopWebcam => stopWebcam render
  | ClickCapture context2d => capturePhoto render (showWebcam render) context2d
  | CaptureEncoded i blob =>
      k <- resume i isAwaitCapture ;;
      match k with
      | Some (AwaitCapture r) => capturePhoto_encoded r blob
      | _ => ret tt
      end
  end.

(** Which events the page can produce in a world: what the JSX renders and
    enables, and which calls are in flight. *)
Definition awaits (w : World) (i : nat) (p : Continuation -> bool) : bool :=
  match nth_error (pending w) i with
  | Some k => p k
  | None => false
  end.

Definition truthy_list {A} (l : list A) : bool :=
  match l with [] => false | _ :: _ => true end.

Definition isSome {A} (o : option A) : bool :=
  match o with Some _ => true | None => false end.

Definition enabled (w : World) (e : Event) : bool :=
  let s := store w in
  match e with
  | CameraChecked _ => true
  | FileChosen _ => true
  | ImageLoaded _ => isSome (selectedFile s)
  | FormatChosen _ => true
  | ClickExtract => isSome (selectedFile s) && negb (isLoading s)
  | FetchSettled i _ =>
      awaits w i isAwaitFetch
  | ClickCreateOverlay _ =>
      isSome (selectedFile s) && truthy_list (textRegions s)
      && negb (isSome (overlayImageUrl s))
  | OverlayLoaded i _ =>
      awaits w i isAwaitOverlay
  | ClickDownload =>
      isSome (selectedFile s) && truthy_list (textRegions s)
      && isSome (overlayImageUrl s)
  | ClickStartWebcam _ =>
      match cameraAvailable s with Some true => negb (showWebcam s) | _ => false end
  | CameraSettled i _ _ _ =>
      awaits w i isAwaitCamera
  | ClickStopWebcam => showWebcam s
  | ClickCapture _ => showWebcam s
  | CaptureEncoded i _ =>
      awaits w i isAwaitCapture
  end.

(** One turn of the event loop: the handler runs to completion against the
    render on screen, React renders the new state, and the cleanups of the
    changed cells run. *)
Definition step (e : Event) (w : World) : World :=
  exec (dispatch e (store w) ;; runCleanups (store w)) w.

Definition run (events : list Event) (w : World) : World :=
  fold_left (fun w e => step e w) events w.

(** A sequence of events the page can produce, one after the other. *)
Fixpoint feasible (events : list Event) (w : World) : bool :=
  match events with
  | [] => true
  | e :: rest => enabled w e && feasible rest (step e w)
  end.

(** The live handles of a world. *)
Definition isOverlayEntry (e : URL * BlobKind) : bool :=
  match snd e with OverlayBlob => true | SourceBlob => false end.

Definition liveOverlays (w : World) : list URL :=
  map fst (filter isOverlayEntry (objectURLs w)).

Definition handle {A} (o : option A) : list A :=
  match o with Some x => [x] | None => [] end.

(** What holds between two turns: the live overlay URLs and the live streams
    are the ones the state cells hold, and identities not yet given out are
    not in use. *)
Definition settled (w : World) : Prop :=
  liveOverlays w = handle (overlayImageUrl (store w))
  /\ liveStreams w = handle (stream (store w))
  /\ (forall u, overlayImageUrl (store w) = Some u -> u < nextId w)
  /\ (forall x, stream (store w) = Some x -> x < nextId w).

(* ================================================================== *)
(** ** Vocabulary of the marker grammar *)



(** A detection marker up to its closing tag, written with the numerals
    [d1 .. d4] and the white space [w2 .. w4] behind the commas. *)
Definition markerHead (d1 w2 d2 w3 d3 w4 d4 : jsstring) : jsstring :=
  lit "<|det|>[[" ++ d1 ++ lit "," ++ w2 ++ d2 ++ lit "," ++ w3 ++ d3
  ++ lit "," ++ w4 ++ d4 ++ lit "]]".

Definition marker (d1 w2 d2 w3 d3 w4 d4 : jsstring) : jsstring :=
  markerHead d1 w2 d2 w3 d3 w4 d4 ++ detClose.

(** A block in the shape the grammar gives it: a detection marker and the
    text behind it. *)
Record MarkedBlock := {
  c1 : jsstring; c2 : jsstring; c3 : jsstring; c4 : jsstring;
  gap2 : jsstring; gap3 : jsstring; gap4 : jsstring;
  body : jsstring
}.

Definition blockText (b : MarkedBlock) : jsstring :=
  marker (c1 b) (gap2 b) (c2 b) (gap3 b) (c3 b) (gap4 b) (c4 b) ++ body b.




(** The input the service sends for a sequence of blocks: each block behind
    one delimiter. *)
Definition joinBlocks (blocks : list jsstring) : jsstring :=
  concat (map (fun b => refDelimiter ++ b) blocks).



(** The workflow's view of a finished attempt. *)
Definition isErrorText (s : jsstring) : bool := startsWith (lit "Error: ") s.

(** The state the atomic reset leaves: no result text or an error text, no
    regions, no overlay. *)
Definition resetState (s : Store) : Prop :=
  (ocrResult s = [] \/ isErrorText (ocrResult s) = true)
  /\ length (textRegions s) = 0
  /\ overlayImageUrl s = None.

(** A failed attempt: the transport fails, or the service reports failure. *)
Definition failed (o : FetchOutcome) : bool :=
  match o with
  | FetchRejected | BodyRejected => true
  | Body data => negb (success data)
  end.

(** The text of a block as the spec words it: everything behind the first
    closing tag of the block, trimmed. *)
Definition textBehindFirstTag (block : jsstring) : jsstring :=
  match indexOf detClose block with
  | Some i => trim (skipn (i + length detClose) block)
  | None => []
  end.




(* ================================================================== *)
(** ** Shapes of a turn *)

(** What one handler can do to a handle cell and to the live handles of its
    kind: leave them; release a handle and empty the cell; or create a handle
    and store it.  [cell0], [live0] and [next0] are the cell, the live
    handles and the next identity before the handler. *)
Definition overlayShape (cell0 : option URL) (live0 : list URL) (next0 : nat)
  (w1 : World) : Prop :=
  (overlayImageUrl (store w1) = cell0 /\ liveOverlays w1 = live0)
  \/ (overlayImageUrl (store w1) = None
      /\ exists u, liveOverlays w1 = filter (fun x => negb (x =? u)) live0)
  \/ (overlayImageUrl (store w1) = Some next0
      /\ liveOverlays w1 = live0 ++ [next0] /\ next0 < nextId w1).

Definition streamShape (cell0 : option MediaStream) (live0 : list MediaStream)
  (next0 : nat) (w1 : World) : Prop :=
  (stream (store w1) = cell0 /\ liveStreams w1 = live0)
  \/ (stream (store w1) = None
      /\ exists x, liveStreams w1 = filter (fun y => negb (y =? x)) live0)
  \/ (stream (store w1) = Some next0
      /\ liveStreams w1 = live0 ++ [next0] /\ next0 < nextId w1).

Definition turnShape (w w1 : World) : Prop :=
  nextId w <= nextId w1
  /\ overlayShape (overlayImageUrl (store w)) (liveOverlays w) (nextId w) w1
  /\ streamShape (stream (store w)) (liveStreams w) (nextId w) w1.

(* ================================================================== *)
(** ** Examples *)

(** The example of the spec: two blocks, [Hello] at [10,20,110,60] and
    [World] at [5,5,50,50]. *)
Definition helloBlock : MarkedBlock :=
  {| c1 := lit "10"; c2 := lit "20"; c3 := lit "110"; c4 := lit "60";
     gap2 := []; gap3 := []; gap4 := []; body := lit "Hello" |}.
Definition worldBlock : MarkedBlock :=
  {| c1 := lit "5"; c2 := lit "5"; c3 := lit "50"; c4 := lit "50";
     gap2 := []; gap3 := []; gap4 := []; body := lit "World" |}.

Definition pagePng : File := {| fileName := lit "page.png"; fileBlob := 0 |}.

(** The service's answer for the example of the spec. *)
Definition helloWorldResponse : FetchOutcome :=
  Body {| success := true;
          responseText := Some (joinBlocks (map blockText [helloBlock; worldBlock]));
          responseError := None |}.

(** Select a file, extract, and receive two regions. *)
Definition untilResulted : list Event :=
  [FileChosen (Some pagePng); ClickExtract; FetchSettled 0 helloWorldResponse].

(** ... then build the overlay. *)
Definition untilOverlayReady : list Event :=
  untilResulted ++ [ClickCreateOverlay true; OverlayLoaded 0 (Decoded (Some 7))].

(** ... or extract again and build the overlay while that attempt is in
    flight; then the attempt fails. *)
Definition overlayDuringAttempt : list Event :=
  untilResulted
  ++ [ClickExtract; ClickCreateOverlay true; OverlayLoaded 1 (Decoded (Some 7));
      FetchSettled 0 FetchRejected].

(** ... or click the overlay button twice before the first image is ready. *)
Definition overlayOrderedTwice : list Event :=
  untilResulted
  ++ [ClickCreateOverlay true; ClickCreateOverlay true;
      OverlayLoaded 0 (Decoded (Some 7))].

(** Two clicks on the camera button before the first stream arrives. *)
Definition cameraOrderedTwice : list Event :=
  [CameraChecked true; ClickStartWebcam true; ClickStartWebcam true;
   CameraSettled 0 true false false].

(* ================================================================== *)
(** ** Display of the result ([sanitizeOcrResult]) *)

(** [s.replace(/c/g, replacement)] for a pattern that is one literal
    character and a replacement that holds no [$]: every occurrence of the
    character in [s] gives way to the replacement. *)
Definition replaceAll (c : char) (replacement s : jsstring) : jsstring :=
  flat_map (fun x => if (x =? c)%N then replacement else [x]) s.

Section Sanitizer.

(** [DOMPurify.sanitize(text, { ALLOWED_TAGS: [], ALLOWED_ATTR: [] })]: the
    library's function, as it is given. *)
Variable purify : jsstring -> jsstring.

Definition sanitizeOcrResult (text : jsstring) (format : Format) : jsstring :=
  match format with
  | FormatMarkdown => purify text
  | FormatText =>
      replaceAll 47%N (lit "&#x2F;")
        (replaceAll 39%N (lit "&#x27;")
           (replaceAll 34%N (lit "&quot;")
              (replaceAll 62%N (lit "&gt;")
                 (replaceAll 60%N (lit "&lt;")
                    (replaceAll 38%N (lit "&amp;") text)))))
  end.

End Sanitizer.

(** The table the six passes amount to: what one character of the text is
    shown as. *)
Definition htmlEntity (c : char) : jsstring :=
  if (c =? 38)%N then lit "&amp;"
  else if (c =? 60)%N then lit "&lt;"
  else if (c =? 62)%N then lit "&gt;"
  else if (c =? 34)%N then lit "&quot;"
  else if (c =? 39)%N then lit "&#x27;"
  else if (c =? 47)%N then lit "&#x2F;"
  else [c].

(** The six characters that are escaped: ampersand, less-than, greater-than,
    double quote, apostrophe and slash. *)
Definition isMarkup (c : char) : bool :=
  existsb (N.eqb c) [38; 60; 62; 34; 39; 47]%N.

(** The names behind the ampersand of the six entities. *)
Definition entityNames : list jsstring :=
  [lit "amp;"; lit "lt;"; lit "gt;"; lit "quot;"; lit "#x27;"; lit "#x2F;"].

(* ================================================================== *)
(** ** Camera errors ([getCameraErrorMessage], the dialogue of [startWebcam]) *)

(** A caught value as the handlers look at it: [null] or [undefined], where
    reading a property throws, or any other value, with its [name] when that
    is a string. *)
Inductive Thrown :=
| Nullish
| Value (name : option jsstring).

(** [v === s] for a string [s] *)
Definition nameIs (v : option jsstring) (s : jsstring) : bool :=
  match v with Some n => eqb n s | None => false end.

Definition getCameraErrorMessage (error : Thrown) : Completion jsstring :=
  match error with
  | Nullish => Throws (lit "TypeError")
  | Value name =>
      let errorMessage := lit "Error accessing webcam. " in
      Normal
        (if nameIs name (lit "NotAllowedError")
            || nameIs name (lit "PermissionDeniedError")
         then errorMessage
              ++ lit "Camera permission was denied. Please allow camera access and try again."
         else if nameIs name (lit "NotFoundError")
                 || nameIs name (lit "DevicesNotFoundError")
         then errorMessage ++ lit "No camera found on your device."
         else if nameIs name (lit "NotReadableError")
                 || nameIs name (lit "TrackStartError")
         then errorMessage ++ lit "Camera is already in use by another application."
         else if nameIs name (lit "OverconstrainedError")
                 || nameIs name (lit "ConstraintNotSatisfiedError")
         then errorMessage ++ lit "Camera constraints could not be satisfied."
         else if nameIs name (lit "NotSupportedError")
         then errorMessage ++ lit "Camera access is not supported in this browser."
         else if nameIs name (lit "AbortError")
         then errorMessage ++ lit "Camera access was aborted."
         else errorMessage
              ++ lit "Unknown error occurred. Please check your browser settings and try again.")
  end.

(** The names [getCameraErrorMessage] knows. *)
Definition knownCameraErrors : list jsstring :=
  [lit "NotAllowedError"; lit "PermissionDeniedError"; lit "NotFoundError";
   lit "DevicesNotFoundError"; lit "NotReadableError"; lit "TrackStartError";
   lit "OverconstrainedError"; lit "ConstraintNotSatisfiedError";
   lit "NotSupportedError"; lit "AbortError"].

(** The three constraint sets [startWebcam] passes to [getUserMedia]. *)
Inductive Constraints :=
| EnvironmentCamera   (* ideal 1280x720, facingMode 'environment' *)
| AnyCamera           (* ideal 1280x720 *)
| PlainVideo.         (* { video: true } *)

(** The browser's answer to one [getUserMedia] call. *)
Inductive Answer :=
| Granted
| Refused (error : Thrown).

Definition granted (a : Answer) : bool :=
  match a with Granted => true | Refused _ => false end.

(** What [startWebcam] asks of the browser and tells the user: the
    [getUserMedia] calls it makes, in order, and the text of the alert it
    raises, if any.  [environment], [anyCamera] and [plain] are the answers
    the browser has for the three constraint sets. *)
Definition startWebcam_dialogue (supported : bool)
  (environment anyCamera plain : Answer) : list Constraints * option jsstring :=
  if negb supported then
    ([], Some (lit "Camera access is not supported in this browser. Please use a modern browser like Chrome, Firefox, or Safari."))
  else
    match environment with
    | Granted => ([EnvironmentCamera], None)
    | Refused envError =>
        match anyCamera with
        | Granted => ([EnvironmentCamera; AnyCamera], None)
        | Refused defaultError =>
            match plain with
            | Granted => ([EnvironmentCamera; AnyCamera; PlainVideo], None)
            | Refused error =>
                ([EnvironmentCamera; AnyCamera; PlainVideo],
                 match getCameraErrorMessage error with
                 | Normal errorMessage => Some errorMessage
                 | Throws _ => None
                 end)
            end
        end
    end.

(** [checkCameraAvailability]: [supported] tells whether
    [navigator.mediaDevices.getUserMedia] is there, [devices] is the list of
    device kinds [enumerateDevices] resolves to, or [None] when it rejects. *)
Definition checkCameraAvailability (supported : bool)
  (devices : option (list jsstring)) : bool :=
  if negb supported then false
  else match devices with
       | Some kinds => existsb (fun kind => eqb kind (lit "videoinput")) kinds
       | None => false
       end.

(* ================================================================== *)
(** ** Configuration ([config.ts], [vite.config.ts]) *)

(** [import.meta.env] *)
Record ImportMetaEnv := {
  VITE_API_BASE_URL : option jsstring;
  VITE_APP_VERSION : option jsstring;
  VITE_ENABLE_WEBCAM : option jsstring;
  VITE_ENABLE_FILE_UPLOAD : option jsstring;
  DEV : bool;
  PROD : bool
}.

(** [v || fallback] for a [v] that is a string or [undefined] *)
Definition orElse (v : option jsstring) (fallback : jsstring) : jsstring :=
  match v with
  | Some s => if truthy s then s else fallback
  | None => fallback
  end.

(** What the module [config] exports. *)
Record Config := {
  API_BASE_URL : jsstring;
  isDev : bool;                (* __DEV__ *)
  isProd : bool;               (* __PROD__ *)
  APP_NAME : jsstring;
  APP_VERSION : jsstring;
  ENABLE_WEBCAM : bool;
  ENABLE_FILE_UPLOAD : bool
}.

(** The module body: the exports, or the error its validation throws. *)
Definition config (env : ImportMetaEnv) : Completion Config :=
  let API_BASE_URL := orElse (VITE_API_BASE_URL env) (lit "/api") in
  let APP_VERSION := orElse (VITE_APP_VERSION env) (lit "1.0.0") in
  let ENABLE_WEBCAM := negb (nameIs (VITE_ENABLE_WEBCAM env) (lit "false")) in
  let ENABLE_FILE_UPLOAD :=
    negb (nameIs (VITE_ENABLE_FILE_UPLOAD env) (lit "false")) in
  if negb (truthy API_BASE_URL)
  then Throws (lit "API_BASE_URL is required. Set VITE_API_BASE_URL environment variable.")
  else Normal {| API_BASE_URL := API_BASE_URL; isDev := DEV env;
                 isProd := PROD env; APP_NAME := lit "DeepSeek OCR UI";
                 APP_VERSION := APP_VERSION; ENABLE_WEBCAM := ENABLE_WEBCAM;
                 ENABLE_FILE_UPLOAD := ENABLE_FILE_UPLOAD |}.

(** What the JSX renders under a configuration: the file input with
    [ENABLE_FILE_UPLOAD], the camera button with [ENABLE_WEBCAM]. *)
Definition rendered (cfg : Config) (e : Event) : bool :=
  match e with
  | FileChosen _ => ENABLE_FILE_UPLOAD cfg
  | ClickStartWebcam _ => ENABLE_WEBCAM cfg
  | _ => true
  end.

Fixpoint feasibleUnder (cfg : Config) (events : list Event) (w : World) : bool :=
  match events with
  | [] => true
  | e :: rest => rendered cfg e && enabled w e && feasibleUnder cfg rest (step e w)
  end.

(** [process.env], as far as [vite.config.ts] reads it. *)
Record ProcessEnv := {
  HOST : option jsstring;
  PORT : option jsstring;
  NODE_ENV : option jsstring
}.

(** [process.env.HOST || true] *)
Inductive Host :=
| HostName (name : jsstring)
| AnyHost.

Record ServerOptions := { host : Host; port : number; strictPort : bool }.

Definition serverOptions (env : ProcessEnv) : ServerOptions :=
  {| host := match HOST env with
             | Some h => if truthy h then HostName h else AnyHost
             | None => AnyHost
             end;
     port := parseInt (orElse (PORT env) (lit "5173"));
     strictPort := true |}.

Record UserConfig := {
  server : ServerOptions;
  preview : ServerOptions;
  defineDev : bool            (* define: { __DEV__ } *)
}.

Definition viteConfig (env : ProcessEnv) : UserConfig :=
  {| server := serverOptions env; preview := serverOptions env;
     defineDev := nameIs (NODE_ENV env) (lit "development") |}.

(* ================================================================== *)
(** ** The drawing of the overlay compositor ([img.onload]) *)

(** [x + y] on Numbers *)
Definition add (x y : number) : number := SFadd prec emax x y.

(** [`${n}`] for an array index or a length: the decimal numeral of [n]. *)
Fixpoint digitsOf (d : Decimal.uint) : jsstring :=
  match d with
  | Decimal.Nil => []
  | Decimal.D0 d' => 48%N :: digitsOf d'
  | Decimal.D1 d' => 49%N :: digitsOf d'
  | Decimal.D2 d' => 50%N :: digitsOf d'
  | Decimal.D3 d' => 51%N :: digitsOf d'
  | Decimal.D4 d' => 52%N :: digitsOf d'
  | Decimal.D5 d' => 53%N :: digitsOf d'
  | Decimal.D6 d' => 54%N :: digitsOf d'
  | Decimal.D7 d' => 55%N :: digitsOf d'
  | Decimal.D8 d' => 56%N :: digitsOf d'
  | Decimal.D9 d' => 57%N :: digitsOf d'
  end.

Definition toString (n : nat) : jsstring := digitsOf (Nat.to_uint n).

(** What the handler does to the 2D context, call by call.  [SetFont] stands
    for the assignment of [`${fontSize}px Arial, sans-serif`]. *)
Inductive CanvasCall :=
| SetFillStyle (style : jsstring)
| SetStrokeStyle (style : jsstring)
| SetLineWidth (width : number)
| SetFont (fontSize : number)
| DrawImage (dx dy dw dh : number)
| FillRect (x y w h : number)
| StrokeRect (x y w h : number)
| MeasureText (label : jsstring)
| FillText (label : jsstring) (x y : number).

(** The callback of [textRegions.forEach]; [textWidth] is the width the
    browser measures for the label. *)
Definition drawRegion (textWidth : number) (region : TextRegion) (index : nat)
  : list CanvasCall :=
  let '(x1, y1, x2, y2) := bbox region in
  let fontSize := labelFontSize region in
  let textHeight := fontSize in
  [ SetFillStyle (lit "rgba(255, 255, 0, 0.3)");
    FillRect x1 y1 (sub x2 x1) (sub y2 y1);
    SetStrokeStyle (lit "#ff6b35");
    SetLineWidth (ofZ 3);
    StrokeRect x1 y1 (sub x2 x1) (sub y2 y1);
    SetFont fontSize;
    SetFillStyle (lit "rgba(0, 0, 0, 0.8)");
    MeasureText (toString (index + 1));
    FillRect x1 (sub (sub y1 textHeight) (ofZ 4))
             (add textWidth (ofZ 8)) (add textHeight (ofZ 4));
    SetFillStyle (lit "white");
    FillText (toString (index + 1)) (add x1 (ofZ 4)) (sub y1 (ofZ 4)) ].

(** [array.forEach((element, index) => ...)], from [index] on. *)
Fixpoint forEachFrom {A B} (callback : A -> nat -> list B) (index : nat)
  (array : list A) : list B :=
  match array with
  | [] => []
  | element :: rest => callback element index ++ forEachFrom callback (S index) rest
  end.

(** [img.onload] up to [canvas.toBlob]: the canvas has the size of
    [imageSize], the image is drawn over all of it, then the regions.
    [textWidth i] is what [measureText] answers for the region at index [i]. *)
Definition drawOverlay (render : Store) (textWidth : nat -> number)
  : list CanvasCall :=
  let (width, height) := imageSize render in
  DrawImage (ofZ 0) (ofZ 0) (ofZ (Z.of_N width)) (ofZ (Z.of_N height))
  :: forEachFrom (fun region index => drawRegion (textWidth index) region index)
       0 (textRegions render).

(** The label texts, the outlines and the filled rectangles of a drawing, in
    the order they are drawn. *)
Definition labelsDrawn (calls : list CanvasCall) : list jsstring :=
  flat_map (fun c => match c with FillText label _ _ => [label] | _ => [] end) calls.

Definition outlinesDrawn (calls : list CanvasCall)
  : list (number * number * number * number) :=
  flat_map (fun c => match c with StrokeRect x y w h => [(x, y, w, h)] | _ => [] end)
           calls.

(* ================================================================== *)
(** ** Vocabulary of the workflow *)

(** The recognition requests in flight. *)
Definition fetchesInFlight (w : World) : nat :=
  length (filter isAwaitFetch (pending w)).

(* ================================================================== *)
(** * Facts about the string operations *)

Module JSStringFacts.
Import JSString.

Lemma eqb_eq a b : eqb a b = true <-> a = b.
Proof.
  revert b; induction a as [|x a IH]; intros [|y b]; simpl;
    try (split; (reflexivity || discriminate)).
  rewrite andb_true_iff, N.eqb_eq, IH. split.
  - intros [-> ->]; reflexivity.
  - intros E; injection E; auto.
Qed.

Lemma startsWith_spec p s :
  startsWith p s = true <-> exists r, s = p ++ r.
Proof.
  revert s; induction p as [|a p IH]; intros s; simpl.
  - split; [intros _; exists s; reflexivity | reflexivity].
  - destruct s as [|b s].
    + split; [discriminate | intros [r E]; discriminate].
    + rewrite andb_true_iff, N.eqb_eq, IH. split.
      * intros [-> [r ->]]. exists r; reflexivity.
      * intros [r E]. injection E as -> ->. split; [reflexivity | exists r; reflexivity].
Qed.

Lemma startsWith_app p r : startsWith p (p ++ r) = true.
Proof. apply startsWith_spec. exists r; reflexivity. Qed.


Lemma indexOf_Some sep s i :
  indexOf sep s = Some i ->
  exists b, s = firstn i s ++ sep ++ b /\ length (firstn i s) = i.
Proof.
  revert i; induction s as [|c s IH]; intros i; simpl.
  - destruct (startsWith sep []) eqn:E; [|discriminate].
    intros [= <-]. apply startsWith_spec in E. destruct E as [r E].
    exists r. split; [exact E | reflexivity].
  - destruct (startsWith sep (c :: s)) eqn:E.
    + intros [= <-]. apply startsWith_spec in E. destruct E as [r E].
      exists r. split; [exact E | reflexivity].
    + destruct (indexOf sep s) as [j|] eqn:Ej; [|discriminate].
      simpl. intros [= <-]. destruct (IH j eq_refl) as [b [Hb Hl]].
      exists b. simpl. split; [f_equal; exact Hb | f_equal; exact Hl].
Qed.


Lemma indexOf_skipn sep s i :
  indexOf sep s = Some i -> exists b, skipn i s = sep ++ b.
Proof.
  intros H. destruct (indexOf_Some _ _ _ H) as [b [Hb Hl]].
  exists b. apply (app_inv_head (firstn i s)).
  rewrite firstn_skipn. exact Hb.
Qed.

















End JSStringFacts.

(* ================================================================== *)
(** * Facts about Numbers *)

Module JSNumberFacts.
Import JSString JSStringFacts JSNumber.







(** *** Integers up to 2^53 are Numbers *)






(** *** Comparison, and the clamp written with [Math.max] and [Math.min] *)

Lemma compare_cont_Eq a b : PosDef.Pos.compare_cont Eq a b = Pos.compare a b.
Proof. reflexivity. Qed.

Lemma SFcompare_antisym a b :
  SFcompare b a = option_map CompOpp (SFcompare a b).
Proof.
  destruct a as [sa|sa| |sa ma ea], b as [sb|sb| |sb mb eb]; simpl;
    try reflexivity; try (destruct sa; reflexivity);
    try (destruct sb; reflexivity); try (destruct sa, sb; reflexivity).
  destruct sa, sb; try reflexivity; f_equal;
    rewrite (Z.compare_antisym ea eb);
    destruct (ea ?= eb)%Z eqn:E; simpl; try reflexivity;
    rewrite !compare_cont_Eq, (Pos.compare_antisym ma mb);
    rewrite ?CompOpp_involutive; reflexivity.
Qed.

Lemma SFcompare_Eq_finite s m e s' m' e' :
  SFcompare (S754_finite s m e) (S754_finite s' m' e') = Some Eq ->
  S754_finite s m e = S754_finite s' m' e'.
Proof.
  simpl. destruct s, s'; try discriminate;
    destruct (e ?= e')%Z eqn:E; try discriminate;
    apply Z.compare_eq in E; subst e'; intros H; injection H as H.
  - apply (f_equal CompOpp) in H. rewrite CompOpp_involutive in H. simpl in H.
    rewrite compare_cont_Eq in H. apply Pos.compare_eq in H. subst. reflexivity.
  - rewrite compare_cont_Eq in H. apply Pos.compare_eq in H. subst. reflexivity.
Qed.

(** How a positive finite Number lies to 12 and to 16. *)
Lemma finite_vs_bounds m e :
  exists a b,
    SFcompare (S754_finite false m e) (S754_finite false 6755399441055744 (-49))
    = Some a
    /\ SFcompare (S754_finite false m e) (S754_finite false 4503599627370496 (-48))
       = Some b
    /\ (a = Lt -> b = Lt) /\ (a = Eq -> b = Lt)
    /\ (b = Gt -> a = Gt) /\ (b = Eq -> a = Gt).
Proof.
  cbn [SFcompare].
  destruct (Z.compare_spec e (-49)) as [E1|E1|E1],
           (Z.compare_spec e (-48)) as [E2|E2|E2];
    try lia; eexists; eexists; (split; [reflexivity|]); (split; [reflexivity|]);
    repeat split; intros; congruence.
Qed.

Lemma max_min_clamp v :
  mathMax [ofZ 12; mathMin [ofZ 16; v]] = clamp v (ofZ 12) (ofZ 16).
Proof.
  unfold mathMax, mathMin, clamp.
  change (ofZ 12) with (S754_finite false 6755399441055744 (-49)).
  change (ofZ 16) with (S754_finite false 4503599627370496 (-48)).
  destruct v as [s|s| |s m e].
  - destruct s; reflexivity.
  - destruct s; reflexivity.
  - reflexivity.
  - destruct s; [reflexivity|].
    destruct (finite_vs_bounds m e) as [a [b [Ha [Hb [R1 [R2 [R3 R4]]]]]]].
    pose proof (SFcompare_antisym (S754_finite false m e)
                  (S754_finite false 6755399441055744 (-49))) as H12.
    pose proof (SFcompare_antisym (S754_finite false m e)
                  (S754_finite false 4503599627370496 (-48))) as H16.
    rewrite Ha in H12. rewrite Hb in H16. simpl option_map in H12, H16.
    assert (Emin :
      min_loop posInfinity
        (@cons number (S754_finite false 4503599627370496 (-48))
           (@cons number (S754_finite false m e) (@nil number)))
      = if ltb (S754_finite false m e) (S754_finite false 4503599627370496 (-48))
        then S754_finite false m e
        else S754_finite false 4503599627370496 (-48)).
    { cbn [min_loop isNaN].
      change (ltb (S754_finite false 4503599627370496 (-48)) posInfinity) with true.
      cbv iota. destruct (ltb _ _); reflexivity. }
    rewrite Emin. unfold ltb, SFltb. rewrite Ha, Hb, H16.
    destruct b; cbn [CompOpp].
    + rewrite (R4 eq_refl). apply SFcompare_Eq_finite in Hb. rewrite Hb.
      reflexivity.
    + cbn [max_loop isNaN]. unfold ltb, SFltb.
      change (SFcompare negInfinity (S754_finite false 6755399441055744 (-49)))
        with (Some Lt).
      cbv iota. rewrite H12.
      destruct a; cbn [CompOpp]; try reflexivity.
      apply SFcompare_Eq_finite in Ha. rewrite Ha. reflexivity.
    + rewrite (R3 eq_refl). reflexivity.
Qed.

End JSNumberFacts.

(* ================================================================== *)
(** * Facts about the matcher *)

Module JSRegExpFacts.
Import JSString JSStringFacts JSNumber JSNumberFacts JSRegExp.












(** *** What a match tells about the string *)












End JSRegExpFacts.

(* ================================================================== *)
(** * Facts about the parser *)

Module ParserFacts.
Import JSString JSStringFacts JSNumber JSNumberFacts JSRegExp JSRegExpFacts.










Lemma parseOCRResult_nil : parseOCRResult [] = [].
Proof. reflexivity. Qed.

















(** *** Blocks that contribute nothing *)





(** *** One marked block, whatever its text *)


End ParserFacts.

(* ================================================================== *)
(** * Facts about the workflow *)

Module WorkflowFacts.
Import JSString JSStringFacts.

Lemma sameHandle_refl o : sameHandle o o = true.
Proof. destruct o; simpl; [apply Nat.eqb_refl | reflexivity]. Qed.

(** Cleanups do nothing after a handler that changed nothing. *)
Lemma runCleanups_same w : runCleanups (store w) w = (tt, w).
Proof.
  unfold runCleanups, bind. rewrite !sameHandle_refl. reflexivity.
Qed.

Lemma step_idle e w :
  dispatch e (store w) w = (tt, w) -> step e w = w.
Proof.
  intros H. unfold step, exec, bind. rewrite H, runCleanups_same. reflexivity.
Qed.

Lemma isErrorText_prefixed s : isErrorText (lit "Error: " ++ s) = true.
Proof. apply startsWith_app. Qed.

(** Cleanups touch no state cell. *)
Lemma runCleanups_store previous w :
  store (exec (runCleanups previous) w) = store w.
Proof.
  unfold runCleanups, exec, bind, ret. simpl.
  destruct (sameHandle (overlayImageUrl previous) (overlayImageUrl (store w)));
    destruct (sameHandle (stream previous) (stream (store w)));
    destruct (overlayImageUrl previous); destruct (stream previous); reflexivity.
Qed.

Lemma step_store e w :
  store (step e w) = store (exec (dispatch e (store w)) w).
Proof.
  unfold step, exec at 1, bind.
  destruct (dispatch e (store w) w) as [u w1] eqn:E.
  change (snd (runCleanups (store w) w1)) with (exec (runCleanups (store w)) w1).
  rewrite runCleanups_store. unfold exec. rewrite E. reflexivity.
Qed.

(** What the reset and the failure branches write. *)
Lemma resetOcrState_store overlay w :
  let s := store (exec (resetOcrState setOcrResult setTextRegions overlay
                          setOverlayImageUrl) w) in
  ocrResult s = [] /\ textRegions s = []
  /\ overlayImageUrl s = match overlay with
                         | Some _ => None
                         | None => overlayImageUrl (store w)
                         end
  /\ selectedFile s = selectedFile (store w)
  /\ stream s = stream (store w).
Proof. destruct overlay; repeat split. Qed.

Lemma handleOCR_settled_failed render o w :
  failed o = true ->
  let s := store (exec (handleOCR_settled render o) w) in
  isErrorText (ocrResult s) = true /\ textRegions s = []
  /\ overlayImageUrl s = match overlayImageUrl render with
                         | Some _ => None
                         | None => overlayImageUrl (store w)
                         end
  /\ isLoading s = false.
Proof.
  intros H. destruct o as [| |data]; simpl in H.
  - destruct (overlayImageUrl render) eqn:E;
      unfold handleOCR_settled, handleOCR_catch; rewrite E; repeat split.
  - destruct (overlayImageUrl render) eqn:E;
      unfold handleOCR_settled, handleOCR_catch; rewrite E; repeat split.
  - apply negb_true_iff in H.
    destruct (overlayImageUrl render) eqn:E;
      unfold handleOCR_settled; rewrite H, E; cbv zeta;
      (split; [change (isErrorText (serviceError data) = true);
               apply isErrorText_prefixed|]); repeat split.
Qed.

(** A settled call runs the rest of its handler, with the render it kept. *)
Lemma dispatch_FetchSettled i o r render w :
  nth_error (pending w) i = Some (AwaitFetch r) ->
  dispatch (FetchSettled i o) render w = handleOCR_settled r o (dequeue i w).
Proof.
  intros H. unfold dispatch, bind, resume. rewrite H. reflexivity.
Qed.

Lemma dispatch_CaptureEncoded i b r render w :
  nth_error (pending w) i = Some (AwaitCapture r) ->
  dispatch (CaptureEncoded i b) render w = capturePhoto_encoded r b (dequeue i w).
Proof.
  intros H. unfold dispatch, bind, resume. rewrite H. reflexivity.
Qed.

Lemma dispatch_OverlayLoaded i l r render w :
  nth_error (pending w) i = Some (AwaitOverlay r) ->
  dispatch (OverlayLoaded i l) render w
  = (tt, exec (createOverlayImage_loaded r l) (dequeue i w)).
Proof.
  intros H. unfold dispatch, bind, resume, exec. rewrite H.
  cbv beta iota delta [isAwaitOverlay]. fold (dequeue i w).
  destruct (createOverlayImage_loaded r l (dequeue i w)). reflexivity.
Qed.

Lemma capturePhoto_encoded_store render b w :
  let s := store (exec (capturePhoto_encoded render (Some b)) w) in
  ocrResult s = [] /\ textRegions s = []
  /\ overlayImageUrl s = match overlayImageUrl render with
                         | Some _ => None
                         | None => overlayImageUrl (store w)
                         end
  /\ selectedFile s
     = Some {| fileName := lit "webcam-photo.jpg"; fileBlob := b |}.
Proof.
  unfold capturePhoto_encoded, stopWebcam.
  destruct (overlayImageUrl render), (stream render); repeat split.
Qed.

(** *** Live handles across a turn *)

Lemma liveOverlays_revoked u l :
  map fst (filter isOverlayEntry (filter (fun e => negb (fst e =? u)) l))
  = filter (fun x => negb (x =? u)) (map fst (filter isOverlayEntry l)).
Proof.
  induction l as [|[v k] l IH]; [reflexivity|].
  simpl. destruct (v =? u) eqn:E; destruct k; simpl; unfold isOverlayEntry in *;
    simpl; rewrite ?E; simpl; rewrite ?IH; reflexivity.
Qed.

Lemma liveOverlays_created l v k :
  map fst (filter isOverlayEntry (l ++ [(v, k)]))
  = map fst (filter isOverlayEntry l)
    ++ match k with OverlayBlob => [v] | SourceBlob => [] end.
Proof.
  rewrite filter_app, map_app. destruct k; reflexivity.
Qed.

Lemma turnShape_refl w : turnShape w w.
Proof. split; [lia|]. split; left; split; reflexivity. Qed.

Ltac live_simpl :=
  unfold liveOverlays; cbn;
  rewrite ?liveOverlays_revoked, ?liveOverlays_created, ?app_nil_r;
  try reflexivity.

Ltac overlay_shape :=
  first
    [ left; split; [reflexivity | live_simpl]
    | right; left; split; [reflexivity | eexists; live_simpl]
    | right; right; split; [reflexivity | split; [live_simpl | cbn; lia]] ].

Ltac stream_shape :=
  first
    [ left; split; reflexivity
    | right; left; split; [reflexivity | eexists; reflexivity]
    | right; right; split; [reflexivity | split; [reflexivity | cbn; lia]] ].

Ltac turn_shape :=
  split; [cbn; lia | split; [overlay_shape | stream_shape]].

Lemma handleOCR_settled_shape r o w :
  turnShape w (exec (handleOCR_settled r o) w).
Proof.
  unfold handleOCR_settled, handleOCR_catch.
  destruct o as [| |[ok [t|] err]]; try destruct ok;
    destruct (overlayImageUrl r); turn_shape.
Qed.

Lemma capturePhoto_encoded_shape r b w :
  turnShape w (exec (capturePhoto_encoded r b) w).
Proof.
  unfold capturePhoto_encoded, stopWebcam.
  destruct b; [|apply turnShape_refl].
  destruct (overlayImageUrl r), (stream r); turn_shape.
Qed.

Lemma createOverlayImage_loaded_shape r l w :
  turnShape w (exec (createOverlayImage_loaded r l) w).
Proof.
  destruct l as [[b|]|]; [|apply turnShape_refl|apply turnShape_refl].
  turn_shape.
Qed.

(** Every handler has that shape. *)
Lemma dispatch_shape e w : turnShape w (exec (dispatch e (store w)) w).
Proof.
  destruct e.
  - turn_shape.
  - destruct file; [|apply turnShape_refl].
    unfold dispatch, handleFileSelect.
    destruct (overlayImageUrl (store w)) eqn:E; turn_shape.
  - turn_shape.
  - turn_shape.
  - unfold dispatch, handleOCR. destruct (selectedFile (store w)); turn_shape.
  - unfold dispatch, bind, resume, exec.
    destruct (nth_error (pending w) i) as [[r|r|r|]|]; cbn [isAwaitFetch];
      try apply turnShape_refl.
    apply (handleOCR_settled_shape r o (dequeue i w)).
  - unfold dispatch, createOverlayImage, bind, imageRefCurrent, exec.
    destruct (selectedFile (store w)), (textRegions (store w)), context2d;
      turn_shape.
  - unfold dispatch, bind, resume, exec.
    destruct (nth_error (pending w) i) as [[r|r|r|]|]; cbn [isAwaitOverlay];
      try apply turnShape_refl.
    fold (dequeue i w).
    pose proof (createOverlayImage_loaded_shape r load (dequeue i w)) as H.
    unfold exec in H.
    destruct (createOverlayImage_loaded r load (dequeue i w)). exact H.
  - apply turnShape_refl.
  - destruct supported; turn_shape.
  - unfold dispatch, bind, resume, exec.
    destruct (nth_error (pending w) i) as [[r|r|r|]|]; cbn [isAwaitCamera];
      try apply turnShape_refl.
    unfold startWebcam_settled.
    destruct (environment || anyCamera || plain); turn_shape.
  - unfold dispatch, stopWebcam. destruct (stream (store w)); turn_shape.
  - unfold dispatch, capturePhoto.
    destruct (showWebcam (store w) && context2d); turn_shape.
  - unfold dispatch, bind, resume, exec.
    destruct (nth_error (pending w) i) as [[r|r|r|]|]; cbn [isAwaitCapture];
      try apply turnShape_refl.
    apply (capturePhoto_encoded_shape r blob (dequeue i w)).
Qed.

(** What the cleanups release. *)
Lemma runCleanups_view previous w1 :
  store (exec (runCleanups previous) w1) = store w1
  /\ nextId (exec (runCleanups previous) w1) = nextId w1
  /\ liveOverlays (exec (runCleanups previous) w1)
     = (if sameHandle (overlayImageUrl previous) (overlayImageUrl (store w1))
        then liveOverlays w1
        else match overlayImageUrl previous with
             | Some u => filter (fun x => negb (x =? u)) (liveOverlays w1)
             | None => liveOverlays w1
             end)
  /\ liveStreams (exec (runCleanups previous) w1)
     = (if sameHandle (stream previous) (stream (store w1))
        then liveStreams w1
        else match stream previous with
             | Some s => filter (fun x => negb (x =? s)) (liveStreams w1)
             | None => liveStreams w1
             end).
Proof.
  unfold runCleanups, exec, bind, ret. cbn [fst snd].
  destruct (sameHandle (overlayImageUrl previous) (overlayImageUrl (store w1)));
    destruct (sameHandle (stream previous) (stream (store w1)));
    destruct (overlayImageUrl previous); destruct (stream previous);
    repeat split; unfold liveOverlays; cbn; rewrite ?liveOverlays_revoked;
    reflexivity.
Qed.

Lemma handle_cases (cell0 : option nat) (next0 : nat) (cell1 : option nat)
  (live1 : list nat) :
  (forall u, cell0 = Some u -> u < next0) ->
  (cell1 = cell0 /\ live1 = handle cell0)
  \/ (cell1 = None
      /\ exists u, live1 = filter (fun x => negb (x =? u)) (handle cell0))
  \/ (cell1 = Some next0 /\ live1 = handle cell0 ++ [next0]) ->
  (if sameHandle cell0 cell1 then live1
   else match cell0 with
        | Some u => filter (fun x => negb (x =? u)) live1
        | None => live1
        end) = handle cell1.
Proof.
  intros Hb [[-> ->] | [[-> [u ->]] | [-> ->]]].
  - rewrite sameHandle_refl. reflexivity.
  - destruct cell0 as [u0|]; simpl; [|reflexivity].
    destruct (u0 =? u); simpl; [reflexivity|]. rewrite Nat.eqb_refl. reflexivity.
  - destruct cell0 as [u0|]; simpl; [|reflexivity].
    specialize (Hb u0 eq_refl).
    assert (E : (u0 =? next0) = false) by (apply Nat.eqb_neq; lia).
    rewrite E, Nat.eqb_refl. simpl.
    rewrite Nat.eqb_sym, E. reflexivity.
Qed.

(** A turn -- handler, then cleanups -- leads from a settled world to a
    settled world. *)
Lemma settled_turn w w1 :
  settled w -> turnShape w w1 -> settled (exec (runCleanups (store w)) w1).
Proof.
  intros [H1 [H2 [H3 H4]]] [Hn [Ho Hs]].
  destruct (runCleanups_view (store w) w1) as [E1 [E2 [E3 E4]]].
  unfold settled. rewrite E1, E2, E3, E4.
  rewrite H1 in Ho. rewrite H2 in Hs.
  split; [|split; [|split]].
  - apply (handle_cases _ (nextId w)); [exact H3|].
    destruct Ho as [Ho | [Ho | [Ho1 [Ho2 _]]]]; auto.
  - apply (handle_cases _ (nextId w)); [exact H4|].
    destruct Hs as [Hs | [Hs | [Hs1 [Hs2 _]]]]; auto.
  - intros u Hu. destruct Ho as [[Ho _] | [[Ho _] | [Ho [_ Hlt]]]].
    + rewrite Ho in Hu. specialize (H3 u Hu). lia.
    + congruence.
    + rewrite Ho in Hu. injection Hu as <-. exact Hlt.
  - intros x Hx. destruct Hs as [[Hs _] | [[Hs _] | [Hs [_ Hlt]]]].
    + rewrite Hs in Hx. specialize (H4 x Hx). lia.
    + congruence.
    + rewrite Hs in Hx. injection Hx as <-. exact Hlt.
Qed.

Lemma settled_step e w : settled w -> settled (step e w).
Proof.
  intros H. unfold step.
  assert (E : exec (dispatch e (store w);; runCleanups (store w)) w
              = exec (runCleanups (store w)) (exec (dispatch e (store w)) w)).
  { unfold exec, bind. destruct (dispatch e (store w) w). reflexivity. }
  rewrite E. apply settled_turn; [exact H | apply dispatch_shape].
Qed.

Lemma settled_initial : settled initialWorld.
Proof. repeat split; discriminate. Qed.

Lemma run_snoc events e w : run (events ++ [e]) w = step e (run events w).
Proof. unfold run. rewrite fold_left_app. reflexivity. Qed.

Lemma settled_run events : settled (run events initialWorld).
Proof.
  induction events as [|e events IH] using rev_ind.
  - exact settled_initial.
  - rewrite run_snoc. apply settled_step. exact IH.
Qed.

Lemma handle_length {A} (o : option A) : length (handle o) <= 1.
Proof. destruct o; simpl; lia. Qed.

(** *** A failed attempt that nothing interleaves with *)

Lemma runCleanups_pending previous w :
  pending (exec (runCleanups previous) w) = pending w.
Proof.
  unfold runCleanups, exec, bind, ret. simpl.
  destruct (sameHandle (overlayImageUrl previous) (overlayImageUrl (store w)));
    destruct (sameHandle (stream previous) (stream (store w)));
    destruct (overlayImageUrl previous); destruct (stream previous); reflexivity.
Qed.

Lemma step_pending e w :
  pending (step e w) = pending (exec (dispatch e (store w)) w).
Proof.
  unfold step, exec at 1, bind.
  destruct (dispatch e (store w) w) as [u w1] eqn:E.
  change (snd (runCleanups (store w) w1)) with (exec (runCleanups (store w)) w1).
  rewrite runCleanups_pending. unfold exec. rewrite E. reflexivity.
Qed.

(** When the failure comes back to the world the click left, the attempt
    ends with the error text, no regions, no overlay handle and no live
    overlay URL. *)
Lemma failed_attempt_undisturbed w o :
  settled w -> selectedFile (store w) <> None -> failed o = true ->
  let w' := step (FetchSettled (length (pending w)) o) (step ClickExtract w) in
  isErrorText (ocrResult (store w')) = true
  /\ textRegions (store w') = []
  /\ overlayImageUrl (store w') = None
  /\ liveOverlays w' = []
  /\ isLoading (store w') = false.
Proof.
  intros Hs Hf Ho w'.
  assert (Hp : nth_error (pending (step ClickExtract w)) (length (pending w))
               = Some (AwaitFetch (store w))).
  { rewrite step_pending. unfold dispatch, handleOCR.
    destruct (selectedFile (store w)); [|congruence].
    cbn. rewrite nth_error_app2, Nat.sub_diag by lia. reflexivity. }
  assert (Hov : overlayImageUrl (store (step ClickExtract w))
                = overlayImageUrl (store w)).
  { rewrite step_store. unfold dispatch, handleOCR.
    destruct (selectedFile (store w)); reflexivity. }
  pose proof (settled_step (FetchSettled (length (pending w)) o) _
                (settled_step ClickExtract w Hs)) as [L _].
  fold w' in L.
  assert (E : store w'
              = store (exec (handleOCR_settled (store w) o)
                         (dequeue (length (pending w)) (step ClickExtract w)))).
  { unfold w'. rewrite step_store. unfold exec.
    rewrite (dispatch_FetchSettled _ o (store w) _ _ Hp). reflexivity. }
  destruct (handleOCR_settled_failed (store w) o
              (dequeue (length (pending w)) (step ClickExtract w)) Ho)
    as [E1 [E2 [E3 E4]]].
  rewrite <- E in E1, E2, E3, E4.
  assert (E5 : overlayImageUrl (store w') = None).
  { rewrite E3. cbn [dequeue store]. rewrite Hov.
    destruct (overlayImageUrl (store w)); reflexivity. }
  rewrite L, E5. auto.
Qed.

End WorkflowFacts.

(* ================================================================== *)
(** * The claims *)

Import JSStringFacts JSNumberFacts JSRegExpFacts ParserFacts.



(** C6 (text content), evaluated where the code leaves the claim.  The claim
    takes the text of a region to be everything behind the first closing tag
    [<|/det|>] of the block, a later marker included.  The code takes
    [block.split('<|/det|>')[1]]: the text between the first closing tag and
    the next one.  On a block with two markers the region's text ends before
    the second closing tag, and [World] is lost. *)
Theorem text_cut_at_next_closing_tag :
  let block := lit "<|det|>[[1,2,3,4]]<|/det|>Hello<|det|>[[5,6,7,8]]<|/det|>World" in
  map text (parseOCRResult (refDelimiter ++ block))
  = [lit "Hello<|det|>[[5,6,7,8]]"]
  /\ textBehindFirstTag block = lit "Hello<|det|>[[5,6,7,8]]<|/det|>World"
  /\ map text (parseOCRResult (refDelimiter ++ block)) <> [textBehindFirstTag block].
Proof.
  cbv zeta. split; [reflexivity|]. split; [reflexivity|].
  vm_compute. discriminate.
Qed.





(** C8 (label size clamp).  The font size of a region's label is
    [clamp((y2 - y1) / 3, 12, 16)], in the arithmetic of Numbers; a box 30
    high gets 12, a box 48 high gets 16, a box 36 high gets 12. *)
Theorem label_size_clamp (r : TextRegion) :
  let '(x1, y1, x2, y2) := bbox r in
  labelFontSize r = clamp (div (sub y2 y1) (ofZ 3)) (ofZ 12) (ofZ 16)
  /\ (sub y2 y1 = ofZ 30 -> labelFontSize r = ofZ 12)
  /\ (sub y2 y1 = ofZ 48 -> labelFontSize r = ofZ 16)
  /\ (sub y2 y1 = ofZ 36 -> labelFontSize r = ofZ 12).
Proof.
  unfold labelFontSize. destruct (bbox r) as [[[x1 y1] x2] y2].
  rewrite max_min_clamp. split; [reflexivity|].
  repeat split; intros ->; reflexivity.
Qed.

(** The boxes of the spec's example, 40 and 45 high, and boxes 30, 48 and 36
    high. *)
Lemma label_size_clamp_witness :
  let box (y1 y2 : Z) :=
    {| text := lit "x"; bbox := (ofZ 10, ofZ y1, ofZ 110, ofZ y2) |} in
  labelFontSize (box 20%Z 50%Z) = ofZ 12
  /\ labelFontSize (box 20%Z 68%Z) = ofZ 16
  /\ labelFontSize (box 20%Z 56%Z) = ofZ 12
  /\ labelFontSize (box 20%Z 60%Z) = div (ofZ 40) (ofZ 3)
  /\ labelFontSize (box 5%Z 50%Z) = ofZ 15.
Proof.
  cbv zeta.
  split; [exact (proj1 (proj2 (label_size_clamp
            {| text := lit "x"; bbox := (ofZ 10, ofZ 20, ofZ 110, ofZ 50) |})) eq_refl)|].
  split; [exact (proj1 (proj2 (proj2 (label_size_clamp
            {| text := lit "x"; bbox := (ofZ 10, ofZ 20, ofZ 110, ofZ 68) |}))) eq_refl)|].
  split; [exact (proj2 (proj2 (proj2 (label_size_clamp
            {| text := lit "x"; bbox := (ofZ 10, ofZ 20, ofZ 110, ofZ 56) |}))) eq_refl)|].
  split; reflexivity.
Defined.

Import WorkflowFacts.

(** C10 (guards).  Extract with no file selected returns at once, and so does
    overlay creation with no file or no regions: the handler leaves the whole
    world as it was -- result text, regions, overlay handle, loading flag and
    every other cell, the browser's handles, the calls in flight -- and the
    turn as a whole (handler, render, cleanups) does too. *)
Theorem guards_leave_state (w : World) :
  (forall render, selectedFile render = None -> handleOCR render w = (tt, w))
  /\ (selectedFile (store w) = None -> step ClickExtract w = w)
  /\ (forall render context2d,
        selectedFile render = None \/ textRegions render = [] ->
        createOverlayImage render context2d w = (Resolved None, w))
  /\ (forall context2d,
        selectedFile (store w) = None \/ textRegions (store w) = [] ->
        step (ClickCreateOverlay context2d) w = w).
Proof.
  assert (G1 : forall render, selectedFile render = None ->
                 handleOCR render w = (tt, w)).
  { intros render H. unfold handleOCR. rewrite H. reflexivity. }
  assert (G2 : forall render context2d,
                 selectedFile render = None \/ textRegions render = [] ->
                 createOverlayImage render context2d w = (Resolved None, w)).
  { intros render context2d H. unfold createOverlayImage, bind, imageRefCurrent.
    destruct H as [H|H]; rewrite H.
    - reflexivity.
    - destruct (selectedFile render); reflexivity. }
  split; [exact G1|]. split; [|split; [exact G2|]].
  - intros H. apply step_idle. exact (G1 _ H).
  - intros context2d H. apply step_idle. unfold dispatch, bind.
    rewrite (G2 _ context2d H). reflexivity.
Qed.

(** The untouched page: nothing selected, nothing parsed. *)
Lemma guards_leave_state_witness :
  step ClickExtract initialWorld = initialWorld
  /\ step (ClickCreateOverlay true) initialWorld = initialWorld
  /\ handleOCR initialStore initialWorld = (tt, initialWorld)
  /\ createOverlayImage initialStore true initialWorld = (Resolved None, initialWorld).
Proof.
  destruct (guards_leave_state initialWorld) as [G1 [G2 [G3 G4]]].
  split; [exact (G2 eq_refl)|]. split; [exact (G4 true (or_introl eq_refl))|].
  split; [exact (G1 initialStore eq_refl) | exact (G3 initialStore true (or_introl eq_refl))].
Defined.

(** C2, as stated, fails when an extraction attempt begins: [handleOCR] only
    raises the loading flag.  After a finished extraction with its overlay, a
    click on Extract leaves the old text, the old regions and the old overlay
    in place. *)
Lemma no_reset_when_attempt_begins :
  feasible (untilOverlayReady ++ [ClickExtract]) initialWorld = true
  /\ ~ resetState (store (run (untilOverlayReady ++ [ClickExtract]) initialWorld)).
Proof.
  split; [vm_compute; reflexivity|].
  intros [_ [_ H]]. vm_compute in H. discriminate H.
Qed.

(** C2, amended.  Committing a source by file selection, committing one by
    capture, and a failed attempt each leave, in the one turn they run in, an
    empty or error result text, no regions and no overlay handle -- for the
    two that resume a suspended handler, provided no overlay has been created
    since the render that handler closes over saw none.  Beginning an attempt
    resets none of the three. *)
Theorem reset_on_commit_and_failure (w : World) :
  (forall f, resetState (store (step (FileChosen (Some f)) w)))
  /\ (forall i render b,
        nth_error (pending w) i = Some (AwaitCapture render) ->
        (overlayImageUrl render = None -> overlayImageUrl (store w) = None) ->
        resetState (store (step (CaptureEncoded i (Some b)) w)))
  /\ (forall i render o,
        nth_error (pending w) i = Some (AwaitFetch render) ->
        failed o = true ->
        (overlayImageUrl render = None -> overlayImageUrl (store w) = None) ->
        resetState (store (step (FetchSettled i o) w))
        /\ isErrorText (ocrResult (store (step (FetchSettled i o) w))) = true)
  /\ (ocrResult (store (step ClickExtract w)) = ocrResult (store w)
      /\ textRegions (store (step ClickExtract w)) = textRegions (store w)
      /\ overlayImageUrl (store (step ClickExtract w)) = overlayImageUrl (store w)).
Proof.
  split; [|split; [|split]].
  - intros f. rewrite step_store. unfold dispatch, handleFileSelect.
    unfold resetState.
    destruct (overlayImageUrl (store w)) eqn:E;
      unfold resetOcrState, cleanupOverlayImage; cbn; auto.
  - intros i render b Hi Hov. rewrite step_store.
    unfold exec. rewrite (dispatch_CaptureEncoded i (Some b) render _ w Hi).
    destruct (capturePhoto_encoded_store render b (dequeue i w)) as [E1 [E2 [E3 _]]].
    unfold exec in E1, E2, E3. unfold resetState. rewrite E1, E2, E3.
    split; [left; reflexivity|]. split; [reflexivity|].
    destruct (overlayImageUrl render); [reflexivity | apply Hov; reflexivity].
  - intros i render o Hi Hf Hov. rewrite step_store.
    unfold exec. rewrite (dispatch_FetchSettled i o render _ w Hi).
    destruct (handleOCR_settled_failed render o (dequeue i w) Hf) as [E1 [E2 [E3 _]]].
    unfold exec in E1, E2, E3. unfold resetState. rewrite E1, E2, E3.
    split; [|reflexivity].
    split; [right; reflexivity|]. split; [reflexivity|].
    destruct (overlayImageUrl render); [reflexivity | apply Hov; reflexivity].
  - rewrite step_store. unfold dispatch, handleOCR.
    destruct (selectedFile (store w)); repeat split.
Qed.

(** A file chosen over a finished extraction; a capture and a failed attempt
    resumed in the worlds their handlers started from. *)
Lemma reset_on_commit_and_failure_witness :
  resetState (store (step (FileChosen (Some pagePng))
                       (run untilOverlayReady initialWorld)))
  /\ resetState
       (store (step (CaptureEncoded 0 (Some 9))
                 (run (untilOverlayReady
                       ++ [CameraChecked true; ClickStartWebcam true;
                           CameraSettled 0 true true true; ClickCapture true])
                      initialWorld)))
  /\ resetState
       (store (step (FetchSettled 0 FetchRejected)
                 (run (untilOverlayReady ++ [ClickExtract]) initialWorld))).
Proof.
  split; [|split].
  - exact (proj1 (reset_on_commit_and_failure _) pagePng).
  - eapply (proj1 (proj2 (reset_on_commit_and_failure _))).
    + vm_compute. reflexivity.
    + intros H. vm_compute in H. discriminate H.
  - eapply (proj1 (proj2 (proj2 (reset_on_commit_and_failure _)))).
    + vm_compute. reflexivity.
    + reflexivity.
    + intros H. vm_compute in H. discriminate H.
Defined.

(** C4 (failed attempt), evaluated where the code leaves the claim.  The
    continuation of [handleOCR] releases the overlay handle of the render
    that started the attempt.  When the overlay is created while the attempt
    is in flight -- the button is live, the regions of the last extraction
    are still there -- that render saw no overlay, [cleanupOverlayImage]
    gets [null] and does nothing: the attempt fails, the result text is the
    error, the regions are gone, and the overlay stays, live and shown. *)
Theorem overlay_survives_failed_attempt :
  feasible overlayDuringAttempt initialWorld = true
  /\ (let w := run overlayDuringAttempt initialWorld in
      ocrResult (store w) = lit "Error: Failed to connect to OCR service"
      /\ textRegions (store w) = []
      /\ isLoading (store w) = false
      /\ overlayImageUrl (store w) = Some 1
      /\ liveOverlays w = [1]).
Proof. vm_compute. repeat split. Qed.

(** C5, as stated, fails: with an image that does not decode the promise is
    never settled, so there is no failure indicator to tell from success; and
    without a drawing context it resolves to [undefined], which is also what
    it resolves to when there is nothing to do. *)
Lemma decode_failure_never_settles :
  let w := run (untilResulted ++ [ClickCreateOverlay true]) initialWorld in
  feasible (untilResulted ++ [ClickCreateOverlay true]) initialWorld = true
  /\ (exists render,
        nth_error (pending w) 0 = Some (AwaitOverlay render)
        /\ fst (createOverlayImage_loaded render DecodeFailed (dequeue 0 w)) = Unsettled)
  /\ fst (createOverlayImage (store (run untilResulted initialWorld)) false
            (run untilResulted initialWorld))
     = fst (createOverlayImage initialStore true initialWorld).
Proof.
  cbv zeta. split; [vm_compute; reflexivity|]. split; [|vm_compute; reflexivity].
  eexists. split; [vm_compute; reflexivity | reflexivity].
Qed.

(** C5, amended.  Without a drawing context the compositor resolves to
    [undefined] and touches nothing -- its answer when its preconditions
    fail, too; with an image that does not decode, or a canvas that encodes
    to no blob, its promise stays unsettled and nothing is touched.  It
    throws in neither case. *)
Theorem compose_failure_modes (render : Store) (w : World) :
  createOverlayImage render false w = (Resolved None, w)
  /\ createOverlayImage_loaded render DecodeFailed w = (Unsettled, w)
  /\ createOverlayImage_loaded render (Decoded None) w = (Unsettled, w).
Proof.
  split; [|split; reflexivity].
  unfold createOverlayImage, bind, imageRefCurrent.
  destruct (selectedFile render), (textRegions render), (selectedFile (store w));
    reflexivity.
Qed.

(** C3, as stated, fails in its second half: no handler releases a handle
    before it creates one of the same kind.  When the overlay button is
    clicked twice before the first image is ready, the second overlay URL is
    created while the first is live; two camera requests do the same with two
    streams.  The older handle goes only with the cleanup that follows. *)
Lemma nothing_released_before_creation :
  (let w := run overlayOrderedTwice initialWorld in
   feasible overlayOrderedTwice initialWorld = true
   /\ enabled w (OverlayLoaded 0 (Decoded (Some 8))) = true
   /\ liveOverlays w = [2]
   /\ liveOverlays (exec (dispatch (OverlayLoaded 0 (Decoded (Some 8))) (store w)) w)
      = [2; 3])
  /\ (let w := run cameraOrderedTwice initialWorld in
      feasible cameraOrderedTwice initialWorld = true
      /\ enabled w (CameraSettled 0 true false false) = true
      /\ liveStreams w = [0]
      /\ liveStreams (exec (dispatch (CameraSettled 0 true false false) (store w)) w)
         = [0; 1]).
Proof. vm_compute. repeat split. Qed.

(** C3, amended.  After every sequence of events, between two turns, the
    live overlay URLs are exactly the one the state holds, if any, and so are
    the live streams: at most one of each.  A handler that creates a handle
    releases none: every handle live before it is live after it, until the
    cleanup. *)
Theorem one_live_handle_between_turns (events : list Event) :
  (liveOverlays (run events initialWorld)
   = handle (overlayImageUrl (store (run events initialWorld)))
   /\ length (liveOverlays (run events initialWorld)) <= 1)
  /\ (liveStreams (run events initialWorld)
      = handle (stream (store (run events initialWorld)))
      /\ length (liveStreams (run events initialWorld)) <= 1)
  /\ (forall render load,
        incl (liveOverlays (run events initialWorld))
             (liveOverlays (exec (createOverlayImage_loaded render load)
                              (run events initialWorld))))
  /\ (forall environment anyCamera plain,
        incl (liveStreams (run events initialWorld))
             (liveStreams (exec (startWebcam_settled environment anyCamera plain)
                             (run events initialWorld)))).
Proof.
  destruct (settled_run events) as [H1 [H2 _]].
  split; [|split; [|split]].
  - rewrite H1. split; [reflexivity | apply handle_length].
  - rewrite H2. split; [reflexivity | apply handle_length].
  - intros render [[b|]|]; try apply incl_refl.
    unfold liveOverlays. cbn. rewrite liveOverlays_created.
    apply incl_appl, incl_refl.
  - intros environment anyCamera plain. unfold startWebcam_settled.
    destruct (environment || anyCamera || plain); [|apply incl_refl].
    cbn. apply incl_appl, incl_refl.
Qed.
